(** * Verification of playlist_audio_feature_rankings.py

    A shallow embedding of the Spotify playlist ranking script:
    pagination ([get_playlists], [get_playlist_tracks]), batched feature
    lookup ([get_audio_features]), averaging ([average_audio_features]),
    ranking ([print_rankings]) and the [main] pipeline.

    Modelling choices:
    - A Python float (IEEE 754 binary64) is represented by its exact value
      in [Q]. Each float operation the source performs ([+], [/],
      [round(x, 2)]) rounds its exact result to the nearest binary64 value,
      ties to even ([to_double]), with binary64's 53-bit significand and
      subnormal range. Infinities, NaN and the sign of zero are not
      represented: overflow past 2^1024 is outside the model. The [int]
      [0] the running sums start from and [len(audio_features)] enter as
      the floats of equal value; a feature value the API sends as a JSON
      integer is the float of equal value, which the [int] arithmetic
      Python would do on it matches below 2^53.
    - Python dicts are association lists with Python's insertion-order
      semantics: assigning an existing key updates it in place.
    - Exceptions are the [Err] branch of a result type. *)

From Stdlib Require Import String List ZArith QArith Qround Lia Bool.
From Stdlib Require Import Sorting.Sorted Sorting.Permutation.
From Stdlib Require Floats.SpecFloat.
Import ListNotations.
Open Scope string_scope.
Open Scope list_scope.
Open Scope nat_scope.

(** ** Python runtime fragments *)

Inductive py_error : Type :=
| ZeroDivisionError
| KeyError (k : string)
| TypeError
(** the fuel of a [while] loop ran out (the loop did not finish) *)
| Diverged.

Inductive result (A : Type) : Type :=
| Ok (a : A)
| Err (e : py_error).
Arguments Ok {A} a.
Arguments Err {A} e.

Definition bind {A B} (m : result A) (f : A -> result B) : result B :=
  match m with Ok a => f a | Err e => Err e end.

Notation "x <- m ;; k" := (bind m (fun x => k))
  (at level 61, m at next level, right associativity).

(** A Python [dict] with string keys, in insertion order. *)
Definition dict (V : Type) := list (string * V).

Fixpoint dict_get {V} (d : dict V) (k : string) : option V :=
  match d with
  | [] => None
  | (k', v) :: d' => if String.eqb k k' then Some v else dict_get d' k
  end.

(** [d[k] = v]: update in place if [k] is present, append otherwise. *)
Fixpoint dict_set {V} (d : dict V) (k : string) (v : V) : dict V :=
  match d with
  | [] => [(k, v)]
  | (k', v') :: d' =>
      if String.eqb k k' then (k', v) :: d' else (k', v') :: dict_set d' k v
  end.

(** [d[k]] raising [KeyError]. *)
Definition dict_index {V} (d : dict V) (k : string) : result V :=
  match dict_get d k with Some v => Ok v | None => Err (KeyError k) end.

(** ** Pagination: [results = first; while results['next']: results = sp.next(results)] *)

Record page (A : Type) : Type := mk_page { items : list A; next : option nat }.
Arguments mk_page {A} items next.
Arguments items {A} p.
Arguments next {A} p.

Section Pager.
Context {A : Type}.
  (** [sp.next(results)]: fetch the page designated by the cursor. *)
Variable fetch_next : nat -> page A.

  (** The loop of lines 21-23 (and 43-45); the result is the accumulated
      item list and the trace of cursors passed to [sp.next]. *)
Fixpoint drain (fuel : nat) (results : page A) (acc : list A)
    (trace : list nat) : option (list A * list nat) :=
    match next results with
    | None => Some (acc, trace)
    | Some c =>
        match fuel with
        | O => None
        | S fuel' =>
            let results' := fetch_next c in
            drain fuel' results' (acc ++ items results') (trace ++ [c])
        end
    end.
End Pager.

(** A server holding a finite cursor chain [P0 -> P1 -> ... -> Pn -> null]:
    page [i] carries cursor [i+1] unless it is the last one. *)
Definition server_page {A} (pages : list (list A)) (i : nat) : page A :=
  mk_page (nth i pages [])
          (if Nat.ltb (S i) (length pages) then Some (S i) else None).

(** [results = first_call(); items = results['items']; while ...]. *)
Definition paginate {A} (pages : list (list A)) : option (list A * list nat) :=
  let first := server_page pages 0 in
  drain (server_page pages) (length pages) first (items first) [].

(** ** Playlists *)

Record playlist_item : Type := mk_playlist
  { pl_name : string; pl_id : string; pl_collaborative : bool }.

(** Lines 24-27. *)
Definition select_playlists (collab_only : bool) (playlists : list playlist_item)
  : dict string :=
  fold_left
    (fun d item =>
       if pl_collaborative item || negb collab_only
       then dict_set d (pl_name item) (pl_id item) else d)
    playlists [].

(** [get_playlists(sp, collab_only)]; [pages] is the user's playlist listing. *)
Definition get_playlists (pages : list (list playlist_item)) (collab_only : bool)
  : result (dict string) :=
  match paginate pages with
  | Some (playlists, _) => Ok (select_playlists collab_only playlists)
  | None => Err Diverged
  end.

(** A playlist entry: [track['track']['id']], possibly [None]. *)
Record track_item : Type := mk_track { track_id : option string }.

(** [get_playlist_tracks(sp, playlist_id)]; [pages id] is its listing. *)
Definition get_playlist_tracks (pages : string -> list (list track_item))
  (playlist_id : string) : result (list track_item) :=
  match paginate (pages playlist_id) with
  | Some (tracks, _) => Ok tracks
  | None => Err Diverged
  end.

(** ** Batched feature lookup *)

(** A raw or averaged feature vector: a dict from descriptor to value. *)
Definition feature := dict Q.

(** [list(filter(None, ids))]: keeps the truthy ids, i.e. drops [None]
    and the empty string. *)
Fixpoint filter_falsy (ids : list (option string)) : list string :=
  match ids with
  | [] => []
  | Some s :: ids' =>
      if String.eqb s "" then filter_falsy ids' else s :: filter_falsy ids'
  | None :: ids' => filter_falsy ids'
  end.

Section AudioFeatures.
  (** [sp.audio_features(tracks=ids)]: one entry per id, possibly [None]. *)
Variable audio_features_call : list string -> list (option feature).

  (** The loop of lines 63-67, with the accumulated result and the trace
      of the id batches passed to [sp.audio_features]. *)
Fixpoint features_loop (fuel : nat) (track_ids : list string)
    (num_tracks_left start : Z) (acc : list (option feature))
    (trace : list (list string))
    : option (list (option feature) * list (list string)) :=
    if Z.ltb 0 num_tracks_left then
      match fuel with
      | O => None
      | S fuel' =>
          let ids := firstn 100 (skipn (Z.to_nat start) track_ids) in
          features_loop fuel' track_ids (num_tracks_left - 100) (start + 100)
            (acc ++ audio_features_call ids) (trace ++ [ids])
      end
    else Some (acc, trace).

  (** [get_audio_features(sp, tracks)]; the loop runs at most
      [len(track_ids)] times, which is the fuel given. *)
Definition get_audio_features (tracks : list track_item)
    : option (list (option feature) * list (list string)) :=
    let track_ids := filter_falsy (map track_id tracks) in
    let num_tracks_left := Z.of_nat (length track_ids) in
    features_loop (length track_ids) track_ids num_tracks_left 0 [] [].
End AudioFeatures.

(** ** Python floats *)

(** [n / d] rounded to the nearest integer, ties to even ([d > 0]). *)
Definition round_div_even (n d : Z) : Z :=
  let q := (n / d)%Z in
  let r := (n mod d)%Z in
  match Z.compare (2 * r) d with
  | Lt => q
  | Gt => (q + 1)%Z
  | Eq => if Z.even q then q else (q + 1)%Z
  end.

(** [2 ^ e] for an integer [e] of either sign. *)
Definition pow2 (e : Z) : Q :=
  if Z.leb 0 e then inject_Z (2 ^ e) else 1 # Z.to_pos (2 ^ (- e)).

(** The binary64 value nearest to [x], ties to even: a significand of 53
    bits at exponent [mag - 53], where [2 ^ (mag - 1) <= |x| < 2 ^ mag],
    and never an exponent below [-1074] (the subnormals). *)
Definition to_double (x : Q) : Q :=
  let a := Z.abs (Qnum x) in
  let b := Zpos (Qden x) in
  if Z.eqb a 0 then 0%Q else
  let k := (Z.log2 a - Z.log2 b)%Z in
  let mag := if Z.leb (b * 2 ^ Z.max k 0)%Z (a * 2 ^ Z.max (- k) 0)%Z
             then (k + 1)%Z else k in
  let e := Z.max (mag - 53) (-1074) in
  let m := round_div_even (a * 2 ^ Z.max (- e) 0) (b * 2 ^ Z.max e 0) in
  (inject_Z (Z.sgn (Qnum x) * m) * pow2 e)%Q.

(** Float [x + y]. *)
Definition fadd (x y : Q) : Q := to_double (x + y).

(** Float [x / y] ([y] non-zero). *)
Definition fdiv (x y : Q) : Q := to_double (x / y).

(** [float(n)] for an [int] [n]. *)
Definition float_of_nat (n : nat) : Q := to_double (inject_Z (Z.of_nat n)).

(** The exact value of [x] rounded to two decimals, half to even. *)
Definition round_decimal2 (x : Q) : Q :=
  let y := (x * 100)%Q in
  let f := Qfloor y in
  let d := (y - inject_Z f)%Q in
  let r := if negb (Qle_bool (1 # 2) d) then f
           else if negb (Qle_bool d (1 # 2)) then (f + 1)%Z
           else if Z.even f then f else (f + 1)%Z in
  r # 100.

(** [round(x, 2)] on a float: CPython rounds the exact value of [x] to two
    decimals (half to even) and reads that decimal back as the nearest
    float. *)
Definition round2 (x : Q) : Q := to_double (round_decimal2 x).

(** ** Averaging *)

Fixpoint map_result {A B} (g : A -> result B) (l : list A) : result (list B) :=
  match l with
  | [] => Ok []
  | a :: l' => b <- g a ;; bs <- map_result g l' ;; Ok (b :: bs)
  end.

Fixpoint fold_result {A B} (g : A -> B -> result A) (l : list B) (a : A)
  : result A :=
  match l with
  | [] => Ok a
  | b :: l' => a' <- g a b ;; fold_result g l' a'
  end.

(** Lines 80-90. *)
Definition cumulative_audio_features_init : dict Q :=
  [("danceability", 0%Q); ("energy", 0%Q); ("loudness", 0%Q);
   ("speechiness", 0%Q); ("acousticness", 0%Q); ("instrumentalness", 0%Q);
   ("liveness", 0%Q); ("valence", 0%Q); ("tempo", 0%Q)].

(** Lines 93-94, for one [audio_feature]: every category of the running
    sums is incremented by [audio_feature[category]]; [None[...]] raises
    [TypeError], a missing key [KeyError]. *)
Definition add_audio_feature (cum : dict Q) (audio_feature : option feature)
  : result (dict Q) :=
  match audio_feature with
  | None => Err TypeError
  | Some f =>
      map_result (fun '(category, total) =>
        v <- dict_index f category ;; Ok (category, fadd total v)) cum
  end.

(** [average_audio_features(audio_features)]. *)
Definition average_audio_features (audio_features : list (option feature))
  : result feature :=
  let num_tracks := length audio_features in
  cum <- fold_result add_audio_feature audio_features
                     cumulative_audio_features_init ;;
  if Nat.eqb num_tracks 0 then Err ZeroDivisionError
  else Ok (map (fun '(category, total) =>
                  (category, round2 (fdiv total (float_of_nat num_tracks))))
               cum).

(** ** Ranking *)

(** Modelled from the spec: [constants.audio_feature_names] (the module
    [constants] is not part of the sources); the spec's closed set of nine
    descriptors, in the order the spec lists them. *)
Definition audio_feature_names : list string :=
  ["danceability"; "energy"; "loudness"; "speechiness"; "acousticness";
   "instrumentalness"; "liveness"; "valence"; "tempo"].

(** Python's [sorted(..., reverse=True)] is documented stable: the result is
    ordered by descending key and items with equal keys keep their input
    order. This list is unique, so it is computed here by insertion: a new
    (later) item goes after every item whose key is at least its own. *)
Section StableSort.
Context {A : Type}.

Fixpoint insert_desc (x : Q * A) (l : list (Q * A)) : list (Q * A) :=
    match l with
    | [] => [x]
    | y :: l' =>
        if Qle_bool (fst x) (fst y) then y :: insert_desc x l' else x :: l
    end.

Definition sorted_desc (l : list (Q * A)) : list (Q * A) :=
    fold_left (fun acc x => insert_desc x acc) l [].
End StableSort.

(** One printed line of the report. *)
Inductive line : Type :=
| Header (category : string)           (* the ['-----------\n{category}\n-----------'] block *)
| Entry (name : string) (value : Q)     (* [f'{playlist[0]}: {playlist[1][category]}'] *)
| Blank.                                (* [print()] *)

(** [sorted(playlists_audio_features.items(), key=lambda x: (x[1][category]),
    reverse=True)]: the keys are computed first (a missing one raises
    [KeyError]), each item is kept with its key. *)
Definition sorted_playlists (category : string) (playlists : dict feature)
  : result (list (Q * (string * feature))) :=
  decorated <- map_result (fun x => k <- dict_index (snd x) category ;; Ok (k, x))
                          playlists ;;
  Ok (sorted_desc decorated).

(** [l[:n]] for an [int] [n], negative values counting from the end. *)
Definition py_take {A} (n : Z) (l : list A) : list A :=
  if Z.leb 0 n then firstn (Z.to_nat n) l
  else firstn (Z.to_nat (Z.of_nat (length l) + n)) l.

Definition entry_line (x : Q * (string * feature)) : line :=
  Entry (fst (snd x)) (fst x).

(** The loop of [print_rankings], writing to [out]; an exception stops it
    with the lines printed so far. *)
Fixpoint print_loop (categories : list string) (playlists : dict feature)
  (top_amount : Z) (out : list line) : list line * option py_error :=
  match categories with
  | [] => (out, None)
  | category :: rest =>
      let out := out ++ [Header category] in
      match sorted_playlists category playlists with
      | Err e => (out, Some e)
      | Ok sorted =>
          let top_ten := py_take top_amount sorted in
          print_loop rest playlists top_amount
            (out ++ map entry_line top_ten ++ [Blank])
      end
  end.

(** [print_rankings(playlists_audio_features, top_amount)]: standard output
    and the exception raised, if any. *)
Definition print_rankings (playlists_audio_features : dict feature)
  (top_amount : Z) : list line * option py_error :=
  print_loop audio_feature_names playlists_audio_features top_amount [].

(** ** The pipeline *)

(** The (already authenticated) Spotify client. *)
Record api : Type := mk_api
  { playlist_pages : list (list playlist_item);
    track_pages : string -> list (list track_item);
    audio_features_api : list string -> list (option feature) }.

(** The loop of lines 132-135 over the playlists dict. *)
Fixpoint collect (sp : api) (playlists : dict string)
  (playlist_audio_features : dict feature) : result (dict feature) :=
  match playlists with
  | [] => Ok playlist_audio_features
  | (playlist, playlist_id) :: rest =>
      tracks <- get_playlist_tracks (track_pages sp) playlist_id ;;
      audio_features <-
        (match get_audio_features (audio_features_api sp) tracks with
         | Some (afs, _) => Ok afs
         | None => Err Diverged
         end) ;;
      avg <- average_audio_features audio_features ;;
      collect sp rest (dict_set playlist_audio_features playlist avg)
  end.

(** [main()]: what it prints and the exception it ends with, if any. *)
Definition main (sp : api) : list line * option py_error :=
  match (playlists <- get_playlists (playlist_pages sp) false ;;
         collect sp playlists []) with
  | Ok playlist_audio_features => print_rankings playlist_audio_features 10
  | Err e => ([], Some e)
  end.

(** ** Specification-side helpers *)

(** The filter of line 26. *)
Definition passes (collab_only : bool) (p : playlist_item) : bool :=
  pl_collaborative p || negb collab_only.

(** The last playlist, in fetch order, that passes the filter under name [k]. *)
Definition last_named (collab_only : bool) (k : string) (ps : list playlist_item)
  : option playlist_item :=
  find (fun p => passes collab_only p && String.eqb (pl_name p) k) (rev ps).

(** Consecutive batches of 100 ids (the last one possibly shorter). *)
Fixpoint batches (fuel : nat) (l : list string) : list (list string) :=
  match fuel with
  | O => []
  | S fuel' =>
      match l with
      | [] => []
      | _ :: _ => firstn 100 l :: batches fuel' (skipn 100 l)
      end
  end.

(** The ids with only the [None] entries removed. *)
Definition drop_null (ids : list (option string)) : list string :=
  flat_map (fun o => match o with Some s => [s] | None => [] end) ids.

(** The ids [filter(None, ...)] keeps, written out per track. *)
Definition truthy_ids (tracks : list track_item) : list string :=
  flat_map (fun t => match track_id t with
                     | Some s => if String.eqb s "" then [] else [s]
                     | None => []
                     end) tracks.

(** [f[c]] for a vector known to hold [c]. *)
Definition value (f : feature) (c : string) : Q :=
  match dict_get f c with Some v => v | None => 0%Q end.

(** The float sum of [xs], added left to right from [0]. *)
Definition fsum (xs : list Q) : Q := fold_left fadd xs 0%Q.

(** A feature vector holding [v] for every descriptor. *)
Definition uniform_feature (v : Q) : feature :=
  map (fun n => (n, v)) audio_feature_names.

(** The value of a [SpecFloat] number, the Standard Library's
    specification of binary floating-point arithmetic ([0] for the
    infinities and NaN). *)
Definition spec_value (f : SpecFloat.spec_float) : Q :=
  match f with
  | SpecFloat.S754_finite s m e => (inject_Z (if s then Zneg m else Zpos m) * pow2 e)%Q
  | _ => 0%Q
  end.

(** [p / q] computed by [SpecFloat]'s binary64 division. *)
Definition spec_ratio (p : Z) (q : positive) : SpecFloat.spec_float :=
  SpecFloat.SFdiv 53 1024
    (match p with
     | Zpos m => SpecFloat.S754_finite false m 0
     | Zneg m => SpecFloat.S754_finite true m 0
     | Z0 => SpecFloat.S754_zero false
     end)
    (SpecFloat.S754_finite false q 0).

(** The descriptors the report has a section for, in printed order. *)
Definition headers (out : list line) : list string :=
  flat_map (fun l => match l with Header c => [c] | _ => [] end) out.

(** A client with two playlists, [A] (empty) and [B] (one track). *)
Definition api_empty_first : api :=
  mk_api [[mk_playlist "A" "a" false; mk_playlist "B" "b" false]]
         (fun playlist_id => if String.eqb playlist_id "a" then [[]]
                             else [[mk_track (Some "t1")]])
         (fun ids => map (fun _ => Some (map (fun n => (n, 1%Q)) audio_feature_names)) ids).

(** Each playlist with its value for [category] (the sort key). *)
Definition decorate (category : string) (playlists : dict feature)
  : list (Q * (string * feature)) :=
  map (fun p => (value (snd p) category, p)) playlists.

(** The lines [print_rankings] prints for [category] when every playlist
    has it: the header, one entry per playlist the slice keeps, in ranked
    order, and a blank line. *)
Definition section (playlists : dict feature) (top_amount : Z) (category : string)
  : list line :=
  Header category
  :: map entry_line (py_take top_amount (sorted_desc (decorate category playlists)))
  ++ [Blank].

(** How many items [l[:top_amount]] keeps of a list of length [n]. *)
Definition slice_length (top_amount : Z) (n : nat) : nat :=
  if Z.leb 0 top_amount then Nat.min (Z.to_nat top_amount) n
  else n - Z.to_nat (- top_amount).

(** [y] may follow [x] in a descending order. *)
Definition desc_key {A} (x y : Q * A) : Prop := (fst y <= fst x)%Q.

(** Each string once, at its first occurrence. *)
Definition first_occurrences (l : list string) : list string :=
  fold_left (fun acc x => if existsb (String.eqb x) acc then acc else acc ++ [x]) l [].

(** One iteration of the loop of lines 132-135, up to the averaged vector. *)
Definition playlist_average (sp : api) (playlist_id : string) : result feature :=
  tracks <- get_playlist_tracks (track_pages sp) playlist_id ;;
  audio_features <-
    (match get_audio_features (audio_features_api sp) tracks with
     | Some (afs, _) => Ok afs
     | None => Err Diverged
     end) ;;
  average_audio_features audio_features.

(** * Proofs *)

(** ** Pagination *)

Lemma skipn_nth_cons {A} (l : list A) (k : nat) (d : A) :
  (k < length l)%nat -> skipn k l = nth k l d :: skipn (S k) l.
Proof.
  revert k; induction l as [|a l IH]; intros [|k] Hk; simpl in *; try lia.
  - reflexivity.
  - apply IH; lia.
Qed.

Lemma server_page_next {A} (pages : list (list A)) k :
  next (server_page pages k)
  = if Nat.ltb (S k) (length pages) then Some (S k) else None.
Proof. reflexivity. Qed.

Lemma drain_server {A} (pages : list (list A)) :
  forall fuel k acc trace,
    (k < length pages)%nat -> (length pages - S k <= fuel)%nat ->
    drain (server_page pages) fuel (server_page pages k) acc trace
    = Some (acc ++ concat (skipn (S k) pages),
            trace ++ seq (S k) (length pages - S k)).
Proof.
  induction fuel as [|fuel IH]; intros k acc trace Hk Hf; cbn [drain];
    rewrite server_page_next;
    destruct (Nat.ltb_spec (S k) (length pages)) as [Hlt|Hlt].
  - lia.
  - rewrite skipn_all2 by lia.
    replace (length pages - S k)%nat with 0%nat by lia. simpl.
    rewrite !app_nil_r; reflexivity.
  - rewrite IH by lia. unfold server_page at 1; cbn [items].
    rewrite (skipn_nth_cons pages (S k) []) by lia. cbn [concat seq].
    rewrite <- !app_assoc.
    replace (length pages - S k)%nat with (S (length pages - S (S k)))%nat by lia.
    reflexivity.
  - rewrite skipn_all2 by lia.
    replace (length pages - S k)%nat with 0%nat by lia. simpl.
    rewrite !app_nil_r; reflexivity.
Qed.

(** Both pagination loops drain the whole chain: the items of all pages in
    order, [sp.next] called with cursors [1 .. n-1]. *)
Lemma paginate_chain {A} (pages : list (list A)) :
  paginate pages = Some (concat pages, seq 1 (length pages - 1)).
Proof.
  unfold paginate.
  destruct pages as [|p0 pages'].
  - reflexivity.
  - change (items (server_page (p0 :: pages') 0)) with p0.
    rewrite (drain_server (p0 :: pages') (length (p0 :: pages')) 0 p0 [])
      by (simpl; lia).
    simpl. rewrite Nat.sub_0_r. reflexivity.
Qed.

(** ** Selecting playlists *)

Lemma dict_get_set {V} (d : dict V) (k k' : string) (v : V) :
  dict_get (dict_set d k v) k' = if String.eqb k' k then Some v else dict_get d k'.
Proof.
  induction d as [|[k0 v0] d IH]; simpl.
  - reflexivity.
  - destruct (String.eqb k k0) eqn:E; simpl.
    + apply String.eqb_eq in E; subst k0.
      destruct (String.eqb k' k); reflexivity.
    + rewrite IH. destruct (String.eqb k' k0) eqn:E1; [|reflexivity].
      apply String.eqb_eq in E1; subst k0.
      destruct (String.eqb k' k) eqn:E2; [|reflexivity].
      apply String.eqb_eq in E2; subst k'.
      rewrite String.eqb_refl in E; discriminate.
Qed.

Lemma select_get_gen (collab_only : bool) (k : string) :
  forall ps d,
    dict_get (fold_left (fun d item =>
       if pl_collaborative item || negb collab_only
       then dict_set d (pl_name item) (pl_id item) else d) ps d) k
    = match last_named collab_only k ps with
      | Some p => Some (pl_id p)
      | None => dict_get d k
      end.
Proof.
  induction ps as [|p ps IH] using rev_ind; intros d.
  - reflexivity.
  - rewrite fold_left_app. simpl.
    unfold last_named. rewrite rev_app_distr. simpl.
    unfold passes.
    destruct (pl_collaborative p || negb collab_only) eqn:Hp; simpl.
    + rewrite dict_get_set.
      rewrite String.eqb_sym.
      destruct (String.eqb (pl_name p) k); simpl; [reflexivity|].
      rewrite IH. reflexivity.
    + rewrite IH. reflexivity.
Qed.

Lemma select_get (collab_only : bool) (ps : list playlist_item) (k : string) :
  dict_get (select_playlists collab_only ps) k
  = option_map pl_id (last_named collab_only k ps).
Proof.
  unfold select_playlists. rewrite select_get_gen.
  destruct (last_named collab_only k ps); reflexivity.
Qed.

Lemma last_named_some (collab_only : bool) (k : string) ps p :
  last_named collab_only k ps = Some p ->
  In p ps /\ passes collab_only p = true /\ pl_name p = k.
Proof.
  unfold last_named. intros H.
  apply find_some in H as [Hin Hp].
  apply andb_true_iff in Hp as [Hp Hn].
  apply String.eqb_eq in Hn.
  repeat split; auto. apply in_rev; exact Hin.
Qed.

Lemma last_named_none (collab_only : bool) (k : string) ps :
  last_named collab_only k ps = None ->
  forall p, In p ps -> passes collab_only p = true -> pl_name p <> k.
Proof.
  unfold last_named. intros H p Hin Hp Hn.
  apply in_rev in Hin.
  apply (find_none _ _ H p) in Hin.
  rewrite Hp, Hn, String.eqb_refl in Hin. discriminate.
Qed.

Lemma find_app {A} (f : A -> bool) (l1 l2 : list A) :
  find f (l1 ++ l2) = match find f l1 with Some x => Some x | None => find f l2 end.
Proof.
  induction l1 as [|a l1 IH]; simpl; [reflexivity|].
  destruct (f a); [reflexivity|exact IH].
Qed.

(** ** Claims about the Collector *)

(** C7: both pagination loops ([get_playlists], [get_playlist_tracks])
    return the concatenation of all pages' items in server order; [sp.next]
    is called once per non-final page, with cursors [1 .. n-1], each once
    (no page is fetched twice); for [P0 -> P1 -> P2 -> null] it is called
    exactly twice. *)
Theorem pagination_drains_in_order :
  (forall (A : Type) (pages : list (list A)),
     exists trace,
       paginate pages = Some (concat pages, trace) /\
       length trace = length pages - 1 /\ NoDup trace /\
       trace = seq 1 (length pages - 1)) /\
  (forall pages collab_only,
     get_playlists pages collab_only
     = Ok (select_playlists collab_only (concat pages))) /\
  (forall pages playlist_id,
     get_playlist_tracks pages playlist_id = Ok (concat (pages playlist_id))) /\
  (forall (A : Type) (p0 p1 p2 : list A),
     paginate [p0; p1; p2] = Some (p0 ++ p1 ++ p2, [1; 2])).
Proof.
  split; [|split; [|split]].
  - intros A pages. exists (seq 1 (length pages - 1)).
    rewrite paginate_chain. repeat split.
    + apply length_seq.
    + apply seq_NoDup.
  - intros pages collab_only. unfold get_playlists.
    rewrite paginate_chain. reflexivity.
  - intros pages playlist_id. unfold get_playlist_tracks.
    rewrite paginate_chain. reflexivity.
  - intros A p0 p1 p2. rewrite paginate_chain. simpl.
    rewrite app_nil_r. reflexivity.
Qed.

(** C4: with [collab_only = true] the mapping holds exactly the names of
    the collaborative playlists, each bound to the id of such a playlist;
    with [collab_only = false] it holds every fetched name; on
    [A (collab), B, C (collab)] it is exactly [{A: idA, C: idC}]. *)
Theorem get_playlists_filter :
  (forall pages, exists d,
     get_playlists pages true = Ok d /\
     (forall k, dict_get d k <> None <->
        exists p, In p (concat pages) /\ pl_collaborative p = true /\ pl_name p = k) /\
     (forall k i, dict_get d k = Some i ->
        exists p, In p (concat pages) /\ pl_collaborative p = true /\
                  pl_name p = k /\ pl_id p = i)) /\
  (forall pages, exists d,
     get_playlists pages false = Ok d /\
     (forall k, dict_get d k <> None <->
        exists p, In p (concat pages) /\ pl_name p = k) /\
     (forall k i, dict_get d k = Some i ->
        exists p, In p (concat pages) /\ pl_name p = k /\ pl_id p = i)) /\
  get_playlists [[mk_playlist "A" "idA" true; mk_playlist "B" "idB" false;
                  mk_playlist "C" "idC" true]] true
  = Ok [("A", "idA"); ("C", "idC")].
Proof.
  assert (Hpass : forall b p, passes b p = true <-> (pl_collaborative p = true \/ b = false)).
  { intros b p. unfold passes. rewrite orb_true_iff, negb_true_iff. tauto. }
  split; [|split].
  - intros pages. eexists. split; [unfold get_playlists; rewrite paginate_chain; reflexivity|].
    split.
    + intros k. rewrite select_get. split.
      * destruct (last_named true k (concat pages)) as [p|] eqn:E; [|simpl; congruence].
        intros _. apply last_named_some in E as (Hin & Hp & Hn).
        exists p. apply Hpass in Hp. destruct Hp as [Hp|Hp]; [|discriminate]. auto.
      * intros (p & Hin & Hc & Hn).
        destruct (last_named true k (concat pages)) eqn:E; [simpl; congruence|].
        exfalso. apply (last_named_none _ _ _ E p Hin); [apply Hpass; auto | exact Hn].
    + intros k i. rewrite select_get.
      destruct (last_named true k (concat pages)) as [p|] eqn:E; simpl; [|discriminate].
      intros Hi; injection Hi as <-.
      apply last_named_some in E as (Hin & Hp & Hn).
      apply Hpass in Hp. destruct Hp as [Hp|Hp]; [|discriminate].
      exists p. auto.
  - intros pages. eexists. split; [unfold get_playlists; rewrite paginate_chain; reflexivity|].
    split.
    + intros k. rewrite select_get. split.
      * destruct (last_named false k (concat pages)) as [p|] eqn:E; [|simpl; congruence].
        intros _. apply last_named_some in E as (Hin & Hp & Hn). exists p. auto.
      * intros (p & Hin & Hn).
        destruct (last_named false k (concat pages)) eqn:E; [simpl; congruence|].
        exfalso. apply (last_named_none _ _ _ E p Hin); [apply Hpass; auto | exact Hn].
    + intros k i. rewrite select_get.
      destruct (last_named false k (concat pages)) as [p|] eqn:E; simpl; [|discriminate].
      intros Hi; injection Hi as <-.
      apply last_named_some in E as (Hin & Hp & Hn). exists p. auto.
  - reflexivity.
Qed.

(** C5: when several playlists passing the filter share a name, the
    mapping binds that name to the id of the last of them in fetch order. *)
Theorem get_playlists_last_wins :
  forall pages collab_only pre p post,
    concat pages = pre ++ p :: post ->
    passes collab_only p = true ->
    (forall q, In q post -> passes collab_only q = true -> pl_name q <> pl_name p) ->
    exists d, get_playlists pages collab_only = Ok d /\
              dict_get d (pl_name p) = Some (pl_id p).
Proof.
  intros pages collab_only pre p post Hcat Hp Hpost.
  eexists. split; [unfold get_playlists; rewrite paginate_chain; reflexivity|].
  rewrite select_get, Hcat. unfold last_named.
  rewrite rev_app_distr. simpl. rewrite <- app_assoc. simpl.
  rewrite find_app.
  destruct (find _ (rev post)) as [q|] eqn:E.
  - exfalso. apply find_some in E as [Hin Hq].
    apply andb_true_iff in Hq as [Hq Hn]. apply String.eqb_eq in Hn.
    apply in_rev in Hin. exact (Hpost q Hin Hq Hn).
  - simpl. rewrite Hp, String.eqb_refl. reflexivity.
Qed.

Lemma get_playlists_last_wins_witness :
  concat [[mk_playlist "A" "id1" true; mk_playlist "A" "id2" true]]
    = [mk_playlist "A" "id1" true] ++ mk_playlist "A" "id2" true :: [] /\
  exists d, get_playlists [[mk_playlist "A" "id1" true; mk_playlist "A" "id2" true]] true = Ok d /\
            dict_get d "A" = Some "id2".
Proof.
  split; [reflexivity|].
  apply (get_playlists_last_wins _ true [mk_playlist "A" "id1" true]
           (mk_playlist "A" "id2" true) []).
  - reflexivity.
  - reflexivity.
  - intros q Hq. destruct Hq.
Defined.

(** ** Batched feature lookup *)

Lemma batches_nil fuel : batches fuel [] = [].
Proof. destruct fuel; reflexivity. Qed.

Lemma features_loop_spec (call : list string -> list (option feature))
  (ids : list string) :
  forall fuel start acc trace,
    length (skipn start ids) <= fuel ->
    features_loop call fuel ids
      (Z.of_nat (length ids) - Z.of_nat start) (Z.of_nat start) acc trace
    = Some (acc ++ concat (map call (batches fuel (skipn start ids))),
            trace ++ batches fuel (skipn start ids)).
Proof.
  induction fuel as [|fuel IH]; intros start acc trace Hf; cbn [features_loop];
    rewrite length_skipn in Hf;
    destruct (Z.ltb_spec 0 (Z.of_nat (length ids) - Z.of_nat start)) as [Hlt|Hge].
  - lia.
  - rewrite skipn_all2 by lia. simpl. rewrite !app_nil_r. reflexivity.
  - rewrite Nat2Z.id.
    replace (Z.of_nat (length ids) - Z.of_nat start - 100)%Z
      with (Z.of_nat (length ids) - Z.of_nat (100 + start))%Z by lia.
    replace (Z.of_nat start + 100)%Z with (Z.of_nat (100 + start)) by lia.
    rewrite IH by (rewrite length_skipn; lia).
    destruct (skipn start ids) as [|x rest] eqn:Hs.
    + apply (f_equal (@length string)) in Hs.
      rewrite length_skipn in Hs. simpl in Hs. lia.
    + rewrite <- skipn_skipn, Hs. cbn [batches map concat].
      rewrite <- !app_assoc. reflexivity.
  - rewrite skipn_all2 by lia. rewrite batches_nil. simpl.
    rewrite !app_nil_r. reflexivity.
Qed.

Lemma get_audio_features_batches call tracks :
  get_audio_features call tracks
  = Some (concat (map call (batches (length (filter_falsy (map track_id tracks)))
                                    (filter_falsy (map track_id tracks)))),
          batches (length (filter_falsy (map track_id tracks)))
                  (filter_falsy (map track_id tracks))).
Proof.
  unfold get_audio_features.
  pose proof (features_loop_spec call (filter_falsy (map track_id tracks))
                (length (filter_falsy (map track_id tracks))) 0 [] [] (le_n _))
    as H.
  simpl in H. rewrite Z.sub_0_r in H. exact H.
Qed.

Lemma batches_concat fuel l : length l <= fuel -> concat (batches fuel l) = l.
Proof.
  revert l; induction fuel as [|fuel IH]; intros l Hl.
  - destruct l; [reflexivity|simpl in Hl; lia].
  - destruct l as [|x l']; [reflexivity|].
    cbn [batches concat]. rewrite IH.
    + apply firstn_skipn.
    + rewrite length_skipn. simpl in *. lia.
Qed.

Lemma batches_sizes fuel l :
  length l <= fuel ->
  Forall (fun b => 0 < length b <= 100) (batches fuel l) /\
  (forall i, S i < length (batches fuel l) -> length (nth i (batches fuel l) []) = 100) /\
  length (batches fuel l) = (length l + 99) / 100.
Proof.
  revert l; induction fuel as [|fuel IH]; intros l Hl.
  - destruct l; [|simpl in Hl; lia]. repeat split; simpl; auto; lia.
  - destruct l as [|x l']; [repeat split; simpl; auto; lia|].
    cbn [batches]. set (l := x :: l').
    destruct (IH (skipn 100 l)) as (Hf & Hn & Hlen);
      [rewrite length_skipn; subst l; simpl in *; lia|].
    repeat split.
    + constructor; [|exact Hf].
      rewrite length_firstn.
      destruct (Nat.min_spec 100 (length l)) as [[? ->]|[? ->]]; subst l; simpl in *; lia.
    + intros [|i] Hi; cbn [nth length] in Hi |- *.
      * rewrite length_firstn.
        destruct (skipn 100 l) eqn:Hs; [rewrite batches_nil in Hi; simpl in Hi; lia|].
        assert (H1 : length (skipn 100 l) > 0) by (rewrite Hs; simpl; lia).
        rewrite length_skipn in H1.
        destruct (Nat.min_spec 100 (length l)) as [[? ->]|[? ->]]; lia.
      * apply Hn. lia.
    + cbn [length]. rewrite Hlen, length_skipn.
      assert (Hl1 : length l > 0) by (subst l; simpl; lia).
      destruct (Nat.le_gt_cases (length l) 100) as [Hle|Hgt].
      * replace (length l - 100) with 0 by lia.
        rewrite (Nat.div_small (0 + 99) 100) by lia.
        apply (Nat.div_unique _ _ _ (length l - 1)); lia.
      * replace (length l + 99) with ((length l - 100 + 99) + 1 * 100) by lia.
        rewrite Nat.div_add by lia. lia.
Qed.

Lemma filter_falsy_truthy tracks :
  filter_falsy (map track_id tracks) = truthy_ids tracks.
Proof.
  induction tracks as [|t ts IH]; simpl; [reflexivity|].
  destruct (track_id t) as [s|]; [|exact IH].
  destruct (String.eqb s ""); simpl; rewrite IH; reflexivity.
Qed.

(** C6 (as the code does it): [get_audio_features] drops the track
    references whose id is [None] or the empty string ([filter(None, ...)]
    keeps truthy ids only), splits the remaining ids, in order, into
    consecutive batches of 100 (the last one possibly shorter), calls
    [sp.audio_features] once per batch, [ceil(n/100)] times, and returns
    the concatenation of the batch results in batch order; 250 ids give
    batches of 100, 100 and 50. *)
Theorem get_audio_features_batched :
  (forall call tracks,
     let ids := truthy_ids tracks in
     exists calls,
       get_audio_features call tracks = Some (concat (map call calls), calls) /\
       concat calls = ids /\
       Forall (fun b => 0 < length b <= 100) calls /\
       (forall i, S i < length calls -> length (nth i calls []) = 100) /\
       length calls = (length ids + 99) / 100) /\
  option_map (fun r => map (@length string) (snd r))
    (get_audio_features (fun ids => map (fun _ => None) ids)
       (map (fun _ => mk_track (Some "t")) (seq 0 250)))
  = Some [100; 100; 50].
Proof.
  split.
  - intros call tracks ids.
    exists (batches (length ids) ids).
    rewrite get_audio_features_batches. unfold ids.
    rewrite filter_falsy_truthy.
    destruct (batches_sizes (length (truthy_ids tracks)) (truthy_ids tracks) (le_n _))
      as (Hf & Hn & Hlen).
    repeat split; auto.
    apply batches_concat, le_n.
  - vm_compute. reflexivity.
Qed.

(** C6 as stated fails: a track reference whose id is the empty string is
    not null, yet its id is never sent to [sp.audio_features]. *)
Lemma get_audio_features_drops_empty_id :
  ~ (exists res calls,
       get_audio_features (fun ids => map (fun _ => None) ids)
         [mk_track (Some "")] = Some (res, calls) /\
       concat calls = drop_null (map track_id [mk_track (Some "")])).
Proof.
  intros (res & calls & H & Hc).
  vm_compute in H. injection H as _ <-.
  vm_compute in Hc. discriminate.
Qed.

(** C10: when every track reference has a null id (or there are none),
    [sp.audio_features] is never called and the result is empty. *)
Theorem get_audio_features_all_null :
  forall call tracks,
    Forall (fun t => track_id t = None) tracks ->
    get_audio_features call tracks = Some ([], []).
Proof.
  intros call tracks Hnull.
  assert (Hids : filter_falsy (map track_id tracks) = []).
  { induction Hnull as [|t ts Ht _ IH]; [reflexivity|].
    simpl. rewrite Ht. exact IH. }
  unfold get_audio_features. rewrite Hids. reflexivity.
Qed.

Lemma get_audio_features_all_null_witness :
  Forall (fun t => track_id t = None) [mk_track None; mk_track None] /\
  get_audio_features (fun ids => map (fun _ => None) ids)
    [mk_track None; mk_track None] = Some ([], []).
Proof.
  split.
  - repeat constructor.
  - apply get_audio_features_all_null. repeat constructor.
Defined.

(** ** Averaging *)

Lemma add_audio_feature_ok (cum : dict Q) (f : feature) :
  (forall c, In c (map fst cum) -> dict_get f c <> None) ->
  add_audio_feature cum (Some f)
  = Ok (map (fun '(c, t) => (c, fadd t (value f c))) cum).
Proof.
  unfold add_audio_feature, dict_index.
  induction cum as [|[c t] cum IH]; intros Hk; simpl; [reflexivity|].
  unfold value at 1.
  destruct (dict_get f c) as [v|] eqn:E.
  - simpl. rewrite IH by (intros c' Hc'; apply Hk; right; exact Hc').
    reflexivity.
  - exfalso. apply (Hk c); [left; reflexivity | exact E].
Qed.

Lemma fold_add_ok (afs : list feature) :
  forall cum,
    (forall f c, In f afs -> In c (map fst cum) -> dict_get f c <> None) ->
    fold_result add_audio_feature (map Some afs) cum
    = Ok (map (fun '(c, t) => (c, fold_left (fun t f => fadd t (value f c)) afs t)) cum).
Proof.
  induction afs as [|f afs IH]; intros cum Hk; cbn [map fold_result fold_left].
  - f_equal. symmetry. erewrite map_ext; [apply map_id|].
    intros [c t]. reflexivity.
  - rewrite add_audio_feature_ok by (intros c Hc; apply Hk; [left|]; auto).
    simpl. rewrite IH.
    + f_equal. rewrite map_map. apply map_ext. intros [c t]. reflexivity.
    + intros f' c Hf Hc. apply Hk; [right; exact Hf|].
      rewrite map_map in Hc.
      replace (map (fun x => fst (let '(c0, t) := x in (c0, fadd t (value f c0)))) cum)
        with (map fst cum) in Hc; [exact Hc|].
      apply map_ext. intros [c' t]. reflexivity.
Qed.

Lemma fold_left_value (afs : list feature) (c : string) (t : Q) :
  fold_left (fun t f => fadd t (value f c)) afs t
  = fold_left fadd (map (fun f => value f c) afs) t.
Proof.
  revert t; induction afs as [|f afs IH]; intros t; simpl; [reflexivity|].
  apply IH.
Qed.

(** C1 (as the code does it): on a non-empty list of feature vectors that
    all hold the nine descriptors, the result has the nine descriptors; each
    is [round(total / n, 2)] where [total] is the float sum of that
    descriptor's values (left to right, from [0]), [n] the number of
    vectors, and the division and the rounding are float operations. *)
Theorem average_audio_features_float_mean :
  forall afs : list feature,
    afs <> [] ->
    (forall f c, In f afs -> In c (map fst cumulative_audio_features_init) ->
                 dict_get f c <> None) ->
    exists avg,
      average_audio_features (map Some afs) = Ok avg /\
      map fst avg = map fst cumulative_audio_features_init /\
      (forall c, In c (map fst cumulative_audio_features_init) ->
         dict_get avg c
         = Some (round2 (fdiv (fsum (map (fun f => value f c) afs))
                              (float_of_nat (length afs))))).
Proof.
  intros afs Hne Hk.
  unfold average_audio_features.
  rewrite fold_add_ok by exact Hk. simpl bind.
  rewrite length_map.
  destruct (Nat.eqb_spec (length afs) 0) as [H0|H0].
  { destruct afs; [congruence | discriminate]. }
  eexists. split; [reflexivity|]. split; [reflexivity|].
  intros c Hc. simpl in Hc.
  repeat (destruct Hc as [<-|Hc];
          [simpl; unfold fsum; rewrite fold_left_value; reflexivity|]).
  destruct Hc.
Qed.

Lemma average_audio_features_float_mean_witness :
  exists avg,
    average_audio_features
      (map Some [uniform_feature (to_double (1 # 1000));
                 uniform_feature (to_double (749 # 1000))]) = Ok avg /\
    map fst avg = map fst cumulative_audio_features_init /\
    (forall c, In c (map fst cumulative_audio_features_init) ->
       dict_get avg c
       = Some (round2 (fdiv (fsum (map (fun f => value f c)
                 [uniform_feature (to_double (1 # 1000));
                  uniform_feature (to_double (749 # 1000))]))
                 (float_of_nat 2)))).
Proof.
  apply average_audio_features_float_mean.
  - discriminate.
  - intros f c Hf Hc. simpl in Hf.
    repeat (destruct Hf as [<-|Hf]; [simpl in Hc;
      repeat (destruct Hc as [<-|Hc]; [discriminate|]); destruct Hc|]).
    destruct Hf.
Defined.

(** C1 as stated fails, whichever values the mean is taken of.
    Of the floats the vectors hold: for the floats nearest 0.001 and 0.749,
    the float sum rounds to exactly 0.75 and the result is (the float
    nearest) 0.38, while the exact mean of the two floats rounds to 0.37.
    Of the decimals the API sent: for 0.735 alone the mean 0.735 rounds
    (half to even) to 0.74, while the float nearest 0.735 lies below it and
    the result is (the float nearest) 0.73. *)
Lemma average_audio_features_not_rounded_mean :
  (exists avg,
     average_audio_features
       (map Some [uniform_feature (to_double (1 # 1000));
                  uniform_feature (to_double (749 # 1000))]) = Ok avg /\
     dict_get avg "danceability" = Some (to_double (38 # 100)) /\
     fadd (to_double (1 # 1000)) (to_double (749 # 1000)) == 3 # 4 /\
     round_decimal2 ((to_double (1 # 1000) + to_double (749 # 1000)) / 2) == 37 # 100 /\
     ~ (to_double (38 # 100) == 37 # 100) /\
     ~ (to_double (38 # 100) == to_double (37 # 100))) /\
  (exists avg,
     average_audio_features (map Some [uniform_feature (to_double (735 # 1000))])
     = Ok avg /\
     dict_get avg "danceability" = Some (to_double (73 # 100)) /\
     round_decimal2 (735 # 1000) == 74 # 100 /\
     ~ (to_double (73 # 100) == 74 # 100) /\
     ~ (to_double (73 # 100) == to_double (74 # 100))).
Proof.
  split; eexists; split; [reflexivity| |reflexivity|];
    repeat split; try (vm_compute; reflexivity);
    intros H; vm_compute in H; discriminate.
Qed.

(** C2 (as the code does it): on the empty list the division
    [total/num_tracks] raises [ZeroDivisionError], which is not caught:
    no vector is returned, and no dedicated empty-input error exists. *)
Theorem average_audio_features_empty :
  average_audio_features [] = Err ZeroDivisionError.
Proof. reflexivity. Qed.

(** C2 as stated fails: the signal for the empty list is the division by
    zero itself, not a distinct error or skip. *)
Lemma average_audio_features_empty_is_division_by_zero :
  ~ (exists e, average_audio_features [] = Err e /\ e <> ZeroDivisionError).
Proof.
  intros (e & H & Hne). injection H as <-. apply Hne. reflexivity.
Qed.

(** ** The descriptor set *)

Lemma add_audio_feature_keys cum af cum' :
  add_audio_feature cum af = Ok cum' -> map fst cum' = map fst cum.
Proof.
  destruct af as [f|]; [|discriminate]. unfold add_audio_feature, dict_index.
  revert cum'; induction cum as [|[c t] cum IH]; intros cum' H; simpl in H.
  - injection H as <-. reflexivity.
  - destruct (dict_get f c) as [v|]; [|discriminate]. simpl in H.
    destruct (map_result _ cum) as [rest|] eqn:E; [|discriminate].
    simpl in H. injection H as <-. simpl. f_equal. apply IH. reflexivity.
Qed.

Lemma fold_add_keys afs :
  forall cum cum', fold_result add_audio_feature afs cum = Ok cum' ->
  map fst cum' = map fst cum.
Proof.
  induction afs as [|af afs IH]; intros cum cum' H; simpl in H.
  - injection H as <-. reflexivity.
  - destruct (add_audio_feature cum af) as [c1|] eqn:E; [|discriminate].
    simpl in H. rewrite (IH _ _ H). exact (add_audio_feature_keys _ _ _ E).
Qed.

Lemma headers_app a b : headers (a ++ b) = headers a ++ headers b.
Proof. unfold headers. apply flat_map_app. Qed.

Lemma headers_entries xs : headers (map entry_line xs) = [].
Proof. induction xs; simpl; auto. Qed.

Lemma print_loop_headers pl top :
  forall cats out0 out,
    print_loop cats pl top out0 = (out, None) -> headers out = headers out0 ++ cats.
Proof.
  induction cats as [|c cats IH]; intros out0 out H; simpl in H.
  - injection H as <-. rewrite app_nil_r. reflexivity.
  - destruct (sorted_playlists c pl) as [sorted|e]; [|discriminate].
    rewrite (IH _ _ H), !headers_app, headers_entries. simpl.
    rewrite <- !app_assoc. reflexivity.
Qed.

(** C9: the descriptors [average_audio_features] accumulates and averages
    are the ones [print_rankings] ranks, the same nine in both stages:
    every averaged vector has exactly those keys, and a report that runs to
    its end has exactly one section per descriptor, in that order. *)
Theorem descriptors_agree :
  map fst cumulative_audio_features_init = audio_feature_names /\
  audio_feature_names =
    ["danceability"; "energy"; "loudness"; "speechiness"; "acousticness";
     "instrumentalness"; "liveness"; "valence"; "tempo"] /\
  (forall afs avg, average_audio_features afs = Ok avg ->
     map fst avg = audio_feature_names) /\
  (forall pl top out, print_rankings pl top = (out, None) ->
     headers out = audio_feature_names).
Proof.
  split; [reflexivity|]. split; [reflexivity|]. split.
  - intros afs avg H. unfold average_audio_features in H.
    destruct (fold_result add_audio_feature afs cumulative_audio_features_init)
      as [cum|e] eqn:E; [|discriminate].
    simpl in H. destruct (Nat.eqb (length afs) 0); [discriminate|].
    injection H as <-. rewrite map_map.
    rewrite (map_ext _ fst) by (intros [c t]; reflexivity).
    rewrite (fold_add_keys _ _ _ E). reflexivity.
  - intros pl top out H. unfold print_rankings in H.
    apply print_loop_headers in H. exact H.
Qed.

(** ** Ranking *)

Section StableSortProofs.
Context {A : Type}.

Lemma insert_desc_perm (x : Q * A) l : Permutation (insert_desc x l) (x :: l).
  Proof.
    induction l as [|y l IH]; simpl; [reflexivity|].
    destruct (Qle_bool (fst x) (fst y)); [|reflexivity].
    rewrite IH. apply perm_swap.
  Qed.

Lemma insert_desc_sorted (x : Q * A) l :
    StronglySorted desc_key l -> StronglySorted desc_key (insert_desc x l).
  Proof.
    induction l as [|y l IH]; intros Hs; simpl.
    - repeat constructor.
    - apply StronglySorted_inv in Hs as [Hs Hy].
      destruct (Qle_bool (fst x) (fst y)) eqn:E.
      + apply Qle_bool_iff in E. constructor; [apply IH, Hs|].
        apply Forall_forall. intros z Hz.
        apply (Permutation_in _ (insert_desc_perm x l)) in Hz.
        destruct Hz as [<-|Hz]; [exact E|].
        exact (proj1 (Forall_forall _ _) Hy z Hz).
      + assert (Hlt : (fst y < fst x)%Q).
        { apply Qnot_le_lt. intros Hle. apply Qle_bool_iff in Hle. congruence. }
        constructor; [constructor; assumption|].
        constructor; [unfold desc_key; apply Qlt_le_weak, Hlt|].
        apply Forall_forall. intros z Hz.
        unfold desc_key. apply (Qle_trans _ (fst y)); [|apply Qlt_le_weak, Hlt].
        exact (proj1 (Forall_forall _ _) Hy z Hz).
  Qed.

Lemma filter_cons_eq (f : Q * A -> bool) a l :
    filter f (a :: l) = if f a then a :: filter f l else filter f l.
  Proof. reflexivity. Qed.

Lemma filter_below (q : Q) l :
    Forall (fun z : Q * A => (fst z < q)%Q) l ->
    filter (fun z => Qeq_bool (fst z) q) l = [].
  Proof.
    induction 1 as [|z l Hz _ IH]; simpl; [reflexivity|].
    destruct (Qeq_bool (fst z) q) eqn:E; [|exact IH].
    apply Qeq_bool_iff in E. exfalso. exact (Qlt_not_eq _ _ Hz E).
  Qed.

Lemma insert_desc_filter (q : Q) (x : Q * A) l :
    StronglySorted desc_key l ->
    filter (fun z => Qeq_bool (fst z) q) (insert_desc x l)
    = filter (fun z => Qeq_bool (fst z) q) l
      ++ (if Qeq_bool (fst x) q then [x] else []).
  Proof.
    induction l as [|y l IH]; intros Hs; simpl.
    - destruct (Qeq_bool (fst x) q); reflexivity.
    - apply StronglySorted_inv in Hs as [Hs Hy].
      destruct (Qle_bool (fst x) (fst y)) eqn:E.
      + simpl. rewrite IH by exact Hs.
        destruct (Qeq_bool (fst y) q); reflexivity.
      + assert (Hlt : (fst y < fst x)%Q).
        { apply Qnot_le_lt. intros Hle. apply Qle_bool_iff in Hle. congruence. }
        rewrite filter_cons_eq.
        destruct (Qeq_bool (fst x) q) eqn:Ex.
        * apply Qeq_bool_iff in Ex.
          assert (Hy' : Qeq_bool (fst y) q = false).
          { destruct (Qeq_bool (fst y) q) eqn:Ey; [|reflexivity].
            apply Qeq_bool_iff in Ey. exfalso. apply (Qlt_not_eq _ _ Hlt).
            rewrite Ey, Ex. reflexivity. }
          simpl. rewrite Hy', (filter_below q l); [reflexivity|].
          apply Forall_forall. intros z Hz.
          apply (Qle_lt_trans _ (fst y)).
          -- exact (proj1 (Forall_forall _ _) Hy z Hz).
          -- rewrite <- Ex. exact Hlt.
        * rewrite app_nil_r. reflexivity.
  Qed.

Lemma sorted_desc_fold (q : Q) (l : list (Q * A)) :
    forall acc : list (Q * A), StronglySorted desc_key acc ->
      StronglySorted desc_key (fold_left (fun acc x => insert_desc x acc) l acc) /\
      Permutation (fold_left (fun acc x => insert_desc x acc) l acc) (l ++ acc) /\
      filter (fun z => Qeq_bool (fst z) q)
             (fold_left (fun acc x => insert_desc x acc) l acc)
      = filter (fun z => Qeq_bool (fst z) q) acc
        ++ filter (fun z => Qeq_bool (fst z) q) l.
  Proof.
    induction l as [|x l IH]; intros acc Hs; simpl.
    - rewrite app_nil_r. auto.
    - destruct (IH (insert_desc x acc)) as (Hs' & Hp & Hf);
        [apply insert_desc_sorted, Hs|].
      repeat split.
      + exact Hs'.
      + rewrite Hp, insert_desc_perm. apply Permutation_sym, Permutation_middle.
      + rewrite Hf, insert_desc_filter by exact Hs.
        destruct (Qeq_bool (fst x) q); rewrite <- app_assoc; reflexivity.
  Qed.

  (** Python's [sorted(..., reverse=True)]: descending, a permutation, and
      stable (equal keys keep their input order). *)
Lemma sorted_desc_spec (l : list (Q * A)) :
    StronglySorted desc_key (sorted_desc l) /\
    Permutation (sorted_desc l) l /\
    (forall q, filter (fun z => Qeq_bool (fst z) q) (sorted_desc l)
               = filter (fun z => Qeq_bool (fst z) q) l).
  Proof.
    unfold sorted_desc.
    destruct (sorted_desc_fold 0%Q l [] (SSorted_nil _)) as (Hs & Hp & _).
    rewrite app_nil_r in Hp. repeat split; auto.
    intros q. destruct (sorted_desc_fold q l [] (SSorted_nil _)) as (_ & _ & Hf).
    exact Hf.
  Qed.
End StableSortProofs.

Lemma decorate_ok (category : string) (playlists : dict feature) :
  (forall p, In p playlists -> dict_get (snd p) category <> None) ->
  map_result (fun x => k <- dict_index (snd x) category ;; Ok (k, x)) playlists
  = Ok (decorate category playlists).
Proof.
  unfold decorate, dict_index, value. unfold feature in *.
  induction playlists as [|p ps IH]; intros Hk; simpl; [reflexivity|].
  destruct (dict_get (snd p) category) eqn:E.
  - simpl. rewrite IH by (intros p' Hp'; apply Hk; right; exact Hp'). reflexivity.
  - exfalso. apply (Hk p); [left; reflexivity | exact E].
Qed.

Lemma sorted_playlists_ok (category : string) (playlists : dict feature) :
  (forall p, In p playlists -> dict_get (snd p) category <> None) ->
  sorted_playlists category playlists = Ok (sorted_desc (decorate category playlists)).
Proof.
  intros Hk. unfold sorted_playlists. rewrite decorate_ok by exact Hk. reflexivity.
Qed.

Lemma print_loop_ok pl top :
  forall cats out0,
    (forall p c, In p pl -> In c cats -> dict_get (snd p) c <> None) ->
    print_loop cats pl top out0
    = (out0 ++ concat (map (fun c => Header c ::
          map entry_line (py_take top (sorted_desc (decorate c pl))) ++ [Blank]) cats),
       None).
Proof.
  induction cats as [|c cats IH]; intros out0 Hk; simpl.
  - rewrite app_nil_r. reflexivity.
  - rewrite sorted_playlists_ok by (intros p Hp; apply Hk; [exact Hp | left; reflexivity]).
    rewrite IH by (intros p c' Hp Hc'; apply Hk; [exact Hp | right; exact Hc']).
    rewrite <- !app_assoc. reflexivity.
Qed.

(** C8: for every descriptor, the section [print_rankings] prints for it
    lists the first [top_amount] entries of a list that holds every
    playlist once, is ordered by descending value of that descriptor, and
    keeps playlists with equal values in the input mapping's order
    (Python's [sorted] is stable also with [reverse=True]); on
    [X: 0.9, Y: 0.95, Z: 0.95] with [top_amount = 2] it prints [Y], then [Z]. *)
Theorem print_rankings_stable_desc :
  (forall (pl : dict feature) (top : Z) (c : string),
     In c audio_feature_names ->
     (forall p c', In p pl -> In c' audio_feature_names -> dict_get (snd p) c' <> None) ->
     exists sorted before after,
       sorted_playlists c pl = Ok sorted /\
       print_rankings pl top
         = (before ++ Header c :: map entry_line (py_take top sorted) ++ Blank :: after,
            None) /\
       Permutation sorted (decorate c pl) /\
       StronglySorted (fun x y => (fst y <= fst x)%Q) sorted /\
       (forall q, filter (fun x => Qeq_bool (fst x) q) sorted
                  = filter (fun x => Qeq_bool (fst x) q) (decorate c pl))) /\
  (let vec v := map (fun n => (n, v)) audio_feature_names in
   match sorted_playlists "energy"
           [("X", vec (9 # 10)%Q); ("Y", vec (95 # 100)%Q); ("Z", vec (95 # 100)%Q)] with
   | Ok sorted => map (fun x => fst (snd x)) (py_take 2 sorted) = ["Y"; "Z"]
   | Err _ => False
   end).
Proof.
  split; [|vm_compute; reflexivity].
  intros pl top c Hc Hk.
  destruct (sorted_desc_spec (decorate c pl)) as (Hs & Hp & Hf).
  destruct (in_split _ _ Hc) as (n1 & n2 & Hn).
  set (section := fun c => Header c ::
          map entry_line (py_take top (sorted_desc (decorate c pl))) ++ [Blank]).
  exists (sorted_desc (decorate c pl)),
         (concat (map section n1)), (concat (map section n2)).
  split; [apply sorted_playlists_ok; intros p Hp'; exact (Hk p c Hp' Hc)|].
  split; [|auto].
  unfold print_rankings. rewrite print_loop_ok by exact Hk.
  rewrite Hn, map_app, concat_app. simpl. fold (section c).
  unfold section at 2. rewrite <- !app_assoc. reflexivity.
Qed.

Lemma print_rankings_stable_desc_witness :
  In "energy" audio_feature_names /\
  exists sorted before after,
    sorted_playlists "energy"
      [("X", map (fun n => (n, (9 # 10)%Q)) audio_feature_names);
       ("Y", map (fun n => (n, (95 # 100)%Q)) audio_feature_names)] = Ok sorted /\
    print_rankings
      [("X", map (fun n => (n, (9 # 10)%Q)) audio_feature_names);
       ("Y", map (fun n => (n, (95 # 100)%Q)) audio_feature_names)] 2
      = (before ++ Header "energy" :: map entry_line (py_take 2 sorted) ++ Blank :: after,
         None) /\
    Permutation sorted (decorate "energy"
      [("X", map (fun n => (n, (9 # 10)%Q)) audio_feature_names);
       ("Y", map (fun n => (n, (95 # 100)%Q)) audio_feature_names)]) /\
    StronglySorted (fun x y => (fst y <= fst x)%Q) sorted /\
    (forall q, filter (fun x => Qeq_bool (fst x) q) sorted
               = filter (fun x => Qeq_bool (fst x) q) (decorate "energy"
      [("X", map (fun n => (n, (9 # 10)%Q)) audio_feature_names);
       ("Y", map (fun n => (n, (95 # 100)%Q)) audio_feature_names)])).
Proof.
  split; [simpl; auto|].
  apply (proj1 print_rankings_stable_desc).
  - simpl; auto.
  - intros p c' Hp Hc'. simpl in Hp.
    repeat (destruct Hp as [<-|Hp]; [simpl in Hc';
      repeat (destruct Hc' as [<-|Hc']; [discriminate|]); destruct Hc'|]).
    destruct Hp.
Defined.

(** ** The pipeline *)

Lemma collect_app (sp : api) x post :
  forall pre acc,
    collect sp (pre ++ x :: post) acc
    = bind (collect sp pre acc) (fun acc' => collect sp (x :: post) acc').
Proof.
  induction pre as [|[name pid] pre IH]; intros acc; simpl; [reflexivity|].
  destruct (get_playlist_tracks (track_pages sp) pid) as [tracks|e]; simpl; [|reflexivity].
  destruct (get_audio_features (audio_features_api sp) tracks) as [[afs tr]|];
    simpl; [|reflexivity].
  destruct (average_audio_features afs) as [avg|e]; simpl; [|reflexivity].
  apply IH.
Qed.

(** C3 (as the code does it): [main] has no error handling; when averaging
    fails for a playlist ([ZeroDivisionError] for an empty feature list,
    [KeyError] for a missing descriptor, [TypeError] for a null feature
    entry), the exception leaves [main]: the playlists after it are not
    processed and nothing is printed. *)
Theorem main_aborts_on_averaging_error :
  forall sp pre name pid post acc tracks afs trace e,
    get_playlists (playlist_pages sp) false = Ok (pre ++ (name, pid) :: post) ->
    collect sp pre [] = Ok acc ->
    get_playlist_tracks (track_pages sp) pid = Ok tracks ->
    get_audio_features (audio_features_api sp) tracks = Some (afs, trace) ->
    average_audio_features afs = Err e ->
    main sp = ([], Some e).
Proof.
  intros sp pre name pid post acc tracks afs trace e Hpl Hpre Htr Haf Havg.
  unfold main. rewrite Hpl. simpl bind.
  rewrite collect_app, Hpre. simpl.
  rewrite Htr. simpl. rewrite Haf. simpl. rewrite Havg. reflexivity.
Qed.

Lemma main_aborts_on_averaging_error_witness :
  get_playlists (playlist_pages api_empty_first) false
    = Ok ([] ++ ("A", "a") :: [("B", "b")]) /\
  collect api_empty_first [] [] = Ok [] /\
  get_playlist_tracks (track_pages api_empty_first) "a" = Ok [] /\
  get_audio_features (audio_features_api api_empty_first) [] = Some ([], []) /\
  average_audio_features [] = Err ZeroDivisionError /\
  main api_empty_first = ([], Some ZeroDivisionError).
Proof.
  split; [reflexivity|]. split; [reflexivity|]. split; [reflexivity|].
  split; [reflexivity|]. split; [reflexivity|].
  apply (main_aborts_on_averaging_error api_empty_first [] "A" "a" [("B", "b")]
           [] [] [] []); reflexivity.
Defined.

(** C3 as stated fails: with an empty first playlist [A], the run stops at
    [A] with [ZeroDivisionError]; the healthy playlist [B] never appears in
    a report, as no report is printed. *)
Lemma main_empty_playlist_aborts_run :
  (forall v, ~ In (Entry "B" v) (fst (main api_empty_first))) /\
  snd (main api_empty_first) = Some ZeroDivisionError.
Proof.
  split.
  - intros v. vm_compute. intros [].
  - vm_compute. reflexivity.
Qed.

(** * Further properties of the code *)

(** ** Averaging: error paths *)

Lemma fold_result_app {A B} (g : A -> B -> result A) l1 l2 a :
  fold_result g (l1 ++ l2) a = bind (fold_result g l1 a) (fold_result g l2).
Proof.
  revert a; induction l1 as [|b l1 IH]; intros a; simpl; [reflexivity|].
  destruct (g a b); simpl; [apply IH|reflexivity].
Qed.

Lemma fold_add_ok_keys (afs : list feature) :
  (forall f c, In f afs -> In c (map fst cumulative_audio_features_init) ->
               dict_get f c <> None) ->
  exists cum, fold_result add_audio_feature (map Some afs) cumulative_audio_features_init
              = Ok cum /\ map fst cum = map fst cumulative_audio_features_init.
Proof.
  intros Hk. rewrite fold_add_ok by exact Hk. eexists. split; [reflexivity|].
  rewrite map_map. apply map_ext. intros [c t]. reflexivity.
Qed.

(** A [None] entry (a track the API has no features for) makes
    [audio_feature[category]] raise [TypeError], whatever follows it. *)
Theorem average_audio_features_null_entry :
  forall (pre : list feature) rest,
    (forall f c, In f pre -> In c (map fst cumulative_audio_features_init) ->
                 dict_get f c <> None) ->
    average_audio_features (map Some pre ++ None :: rest) = Err TypeError.
Proof.
  intros pre rest Hk. unfold average_audio_features.
  rewrite fold_result_app.
  destruct (fold_add_ok_keys pre Hk) as (cum & -> & _). reflexivity.
Qed.

Lemma average_audio_features_null_entry_witness :
  average_audio_features
    (map Some [uniform_feature 1%Q; uniform_feature (1 # 2)]
     ++ None :: [Some (uniform_feature 1%Q)]) = Err TypeError.
Proof.
  apply average_audio_features_null_entry.
  intros f c Hf Hc. simpl in Hf.
  repeat (destruct Hf as [<-|Hf]; [simpl in Hc;
    repeat (destruct Hc as [<-|Hc]; [discriminate|]); destruct Hc|]).
  destruct Hf.
Defined.

Lemma add_audio_feature_missing (f : feature) (c : string) (n2 : list string) :
  forall n1 cum,
    map fst cum = n1 ++ c :: n2 ->
    (forall c', In c' n1 -> dict_get f c' <> None) ->
    dict_get f c = None ->
    add_audio_feature cum (Some f) = Err (KeyError c).
Proof.
  unfold add_audio_feature, dict_index.
  induction n1 as [|c1 n1 IH]; intros cum Hcum Hpre Hc;
    destruct cum as [|[c0 t] cum]; try discriminate; simpl in Hcum;
    injection Hcum as -> Hcum; simpl.
  - rewrite Hc. reflexivity.
  - destruct (dict_get f c1) eqn:E.
    + simpl. rewrite (IH cum Hcum) by (auto; intros c' Hc'; apply Hpre; right; exact Hc').
      reflexivity.
    + exfalso. apply (Hpre c1); [left; reflexivity | exact E].
Qed.

(** A feature record missing a descriptor raises [KeyError] for the first
    missing descriptor, in the order of the running sums. *)
Theorem average_audio_features_missing_key :
  forall (pre : list feature) f rest n1 c n2,
    (forall f' c', In f' pre -> In c' (map fst cumulative_audio_features_init) ->
                   dict_get f' c' <> None) ->
    map fst cumulative_audio_features_init = n1 ++ c :: n2 ->
    (forall c', In c' n1 -> dict_get f c' <> None) ->
    dict_get f c = None ->
    average_audio_features (map Some pre ++ Some f :: rest) = Err (KeyError c).
Proof.
  intros pre f rest n1 c n2 Hk Hn Hpre Hc. unfold average_audio_features.
  rewrite fold_result_app.
  destruct (fold_add_ok_keys pre Hk) as (cum & -> & Hcum). cbn [bind fold_result].
  assert (Hm : add_audio_feature cum (Some f) = Err (KeyError c))
    by (apply (add_audio_feature_missing f c n2 n1); congruence || auto).
  unfold feature in *. rewrite Hm. reflexivity.
Qed.

Lemma average_audio_features_missing_key_witness :
  average_audio_features
    (map Some [uniform_feature 1%Q; uniform_feature (1 # 2)]
     ++ Some [("danceability", 1%Q)] :: [Some (uniform_feature 2%Q)])
  = Err (KeyError "energy").
Proof.
  apply (average_audio_features_missing_key _ _ _ ["danceability"] "energy"
           ["loudness"; "speechiness"; "acousticness"; "instrumentalness";
            "liveness"; "valence"; "tempo"]).
  - intros f c Hf Hc. simpl in Hf.
    repeat (destruct Hf as [<-|Hf]; [simpl in Hc;
      repeat (destruct Hc as [<-|Hc]; [discriminate|]); destruct Hc|]).
    destruct Hf.
  - reflexivity.
  - intros c' [<-|[]]. discriminate.
  - reflexivity.
Defined.

(** [to_double] agrees with the binary64 division of the Standard
    Library's [SpecFloat] on sample ratios: the decimals used in this file,
    halfway cases above 2^53, large values and subnormals; and [fadd] with
    [SpecFloat]'s addition on the sum of the C1 counterexample. *)
Lemma to_double_spec_samples :
  forallb (fun '(p, q) => Qeq_bool (to_double (p # Z.to_pos q))
                                   (spec_value (spec_ratio p (Z.to_pos q))))
    [(1, 10); (1, 1000); (749, 1000); (735, 1000); (73, 100); (74, 100);
     (38, 100); (37, 100); (-12, 100); (2675, 1000);
     (9007199254740993, 1); (9007199254740995, 1);
     (123456789012345678901234567, 1000);
     (1, 3 * 2 ^ 1074); (5, 2 ^ 1075); (3, 2 ^ 1076); (7, 3 * 2 ^ 1060)]%Z
  = true /\
  fadd (to_double (1 # 1000)) (to_double (749 # 1000))
  == spec_value (SpecFloat.SFadd 53 1024 (spec_ratio 1 1000) (spec_ratio 749 1000)).
Proof. split; vm_compute; reflexivity. Qed.

(** ** Feature lookup: one result per id *)

Lemma concat_map_length (call : list string -> list (option feature)) bs :
  (forall ids, length (call ids) = length ids) ->
  length (concat (map call bs)) = length (concat bs).
Proof.
  intros Hc. induction bs as [|b bs IH]; simpl; [reflexivity|].
  rewrite !length_app, IH, Hc. reflexivity.
Qed.

(** When the API answers each batch with one entry per id, the result has
    one entry per kept (truthy) id. *)
Theorem get_audio_features_length :
  forall call tracks,
    (forall ids, length (call ids) = length ids) ->
    exists res calls,
      get_audio_features call tracks = Some (res, calls) /\
      length res = length (truthy_ids tracks).
Proof.
  intros call tracks Hc.
  rewrite get_audio_features_batches, filter_falsy_truthy.
  do 2 eexists. split; [reflexivity|].
  rewrite concat_map_length by exact Hc.
  rewrite batches_concat by apply le_n. reflexivity.
Qed.

Lemma get_audio_features_length_witness :
  exists res calls,
    get_audio_features (fun ids => map (fun _ => None) ids)
      [mk_track (Some "a"); mk_track None; mk_track (Some "b")] = Some (res, calls) /\
    length res = length (truthy_ids [mk_track (Some "a"); mk_track None; mk_track (Some "b")]).
Proof.
  apply get_audio_features_length. intros ids. apply length_map.
Defined.

(** ** The playlists dict: key order *)

Lemma dict_set_keys {V} (d : dict V) (k : string) (v : V) :
  map fst (dict_set d k v)
  = if existsb (String.eqb k) (map fst d) then map fst d else map fst d ++ [k].
Proof.
  induction d as [|[k0 v0] d IH]; simpl; [reflexivity|].
  destruct (String.eqb k k0) eqn:E; simpl.
  - apply String.eqb_eq in E; subst k0. reflexivity.
  - rewrite IH. destruct (existsb (String.eqb k) (map fst d)); reflexivity.
Qed.

Lemma first_occurrences_gen (collab_only : bool) (ps : list playlist_item) :
  forall d,
    map fst (fold_left (fun d item =>
       if pl_collaborative item || negb collab_only
       then dict_set d (pl_name item) (pl_id item) else d) ps d)
    = fold_left (fun acc x => if existsb (String.eqb x) acc then acc else acc ++ [x])
        (map pl_name (filter (passes collab_only) ps)) (map fst d).
Proof.
  induction ps as [|p ps IH]; intros d; simpl; [reflexivity|].
  unfold passes at 1.
  destruct (pl_collaborative p || negb collab_only); simpl; rewrite IH; [|reflexivity].
  rewrite dict_set_keys. reflexivity.
Qed.

Lemma first_occurrences_NoDup_gen (l : list string) :
  forall acc, NoDup acc ->
  NoDup (fold_left (fun acc x => if existsb (String.eqb x) acc then acc else acc ++ [x])
           l acc).
Proof.
  induction l as [|x l IH]; intros acc Hacc; simpl; [exact Hacc|].
  apply IH. destruct (existsb (String.eqb x) acc) eqn:E; [exact Hacc|].
  apply NoDup_app; [exact Hacc | repeat constructor; intros [] |].
  intros y Hy [->|[]].
  assert (Hx : existsb (String.eqb y) acc = true).
  { apply existsb_exists. exists y. split; [exact Hy | apply String.eqb_refl]. }
  congruence.
Qed.

Lemma select_playlists_keys (collab_only : bool) (ps : list playlist_item) :
  map fst (select_playlists collab_only ps)
  = first_occurrences (map pl_name (filter (passes collab_only) ps)) /\
  NoDup (map fst (select_playlists collab_only ps)).
Proof.
  unfold select_playlists. rewrite first_occurrences_gen. split; [reflexivity|].
  apply first_occurrences_NoDup_gen. constructor.
Qed.

(** The names of [get_playlists] come in fetch order, each once, at the
    position of its first passing playlist (a later duplicate updates the
    value in place, C5, but does not move the key). *)
Theorem get_playlists_key_order :
  forall pages collab_only,
    exists d,
      get_playlists pages collab_only = Ok d /\
      map fst d = first_occurrences
                    (map pl_name (filter (passes collab_only) (concat pages))) /\
      NoDup (map fst d).
Proof.
  intros pages collab_only. eexists. split.
  - unfold get_playlists. rewrite paginate_chain. reflexivity.
  - apply select_playlists_keys.
Qed.

(** ** Reporting: errors and sizes *)

Lemma decorate_missing (category : string) (playlists : dict feature) p :
  In p playlists -> dict_get (snd p) category = None ->
  map_result (fun x => k <- dict_index (snd x) category ;; Ok (k, x)) playlists
  = Err (KeyError category).
Proof.
  unfold dict_index. unfold feature in *.
  induction playlists as [|q ps IH]; intros Hin Hp; [destruct Hin|].
  simpl. destruct (dict_get (snd q) category) eqn:E.
  - destruct Hin as [->|Hin]; [congruence|].
    simpl. rewrite (IH Hin Hp). reflexivity.
  - reflexivity.
Qed.

Lemma print_loop_prefix pl top :
  forall n1 rest out0,
    (forall p c, In p pl -> In c n1 -> dict_get (snd p) c <> None) ->
    print_loop (n1 ++ rest) pl top out0
    = print_loop rest pl top
        (out0 ++ concat (map (fun c => Header c ::
           map entry_line (py_take top (sorted_desc (decorate c pl))) ++ [Blank]) n1)).
Proof.
  induction n1 as [|c n1 IH]; intros rest out0 Hk; simpl.
  - rewrite app_nil_r. reflexivity.
  - rewrite sorted_playlists_ok by (intros p Hp; apply Hk; [exact Hp | left; reflexivity]).
    rewrite IH by (intros p c' Hp Hc'; apply Hk; [exact Hp | right; exact Hc']).
    rewrite <- !app_assoc. reflexivity.
Qed.

(** A playlist without some descriptor makes [print_rankings] raise
    [KeyError] for the first such descriptor, right after printing that
    descriptor's header: the sections of the descriptors before it are
    printed in full, none after it is printed. *)
Theorem print_rankings_missing_descriptor :
  forall pl top n1 c n2 p,
    audio_feature_names = n1 ++ c :: n2 ->
    (forall q c', In q pl -> In c' n1 -> dict_get (snd q) c' <> None) ->
    In p pl -> dict_get (snd p) c = None ->
    print_rankings pl top
    = (flat_map (section pl top) n1 ++ [Header c], Some (KeyError c)).
Proof.
  intros pl top n1 c n2 p Hn Hk Hp Hc.
  unfold print_rankings. rewrite Hn, print_loop_prefix by exact Hk.
  simpl. unfold sorted_playlists. rewrite (decorate_missing c pl p Hp Hc).
  rewrite flat_map_concat_map. reflexivity.
Qed.

Lemma print_rankings_missing_descriptor_witness :
  print_rankings [("X", [("danceability", 1%Q)]); ("Y", [("danceability", 2%Q)])] 10
  = (flat_map (section [("X", [("danceability", 1%Q)]); ("Y", [("danceability", 2%Q)])] 10)
       ["danceability"] ++ [Header "energy"], Some (KeyError "energy")) /\
  print_rankings [("X", [("danceability", 1%Q)]); ("Y", [("danceability", 2%Q)])] 10
  = ([Header "danceability"; Entry "Y" 2%Q; Entry "X" 1%Q; Blank; Header "energy"],
     Some (KeyError "energy")).
Proof.
  split.
  - apply (print_rankings_missing_descriptor _ _ ["danceability"] "energy"
             (tl (tl audio_feature_names)) ("X", [("danceability", 1%Q)])).
    + reflexivity.
    + intros q c' Hq [<-|[]]. simpl in Hq.
      destruct Hq as [<-|[<-|[]]]; discriminate.
    + left; reflexivity.
    + reflexivity.
  - reflexivity.
Defined.

Lemma sorted_desc_length {A} (l : list (Q * A)) : length (sorted_desc l) = length l.
Proof.
  destruct (sorted_desc_spec l) as (_ & Hp & _). apply Permutation_length, Hp.
Qed.

(** When every playlist has every descriptor, [print_rankings] ends
    normally and prints, for each descriptor in turn, its header, the
    entries the slice [[:top_amount]] keeps of the ranking, and a blank
    line; the slice keeps [min(top, n)] of the [n] playlists for
    [top >= 0] and [n - |top|] (at least 0) for a negative [top]. *)
Theorem print_rankings_size :
  forall pl top,
    (forall p c, In p pl -> In c audio_feature_names -> dict_get (snd p) c <> None) ->
    print_rankings pl top = (flat_map (section pl top) audio_feature_names, None) /\
    (forall c, length (py_take top (sorted_desc (decorate c pl)))
               = slice_length top (length pl)).
Proof.
  intros pl top Hk. split.
  - unfold print_rankings. rewrite print_loop_ok by exact Hk.
    rewrite flat_map_concat_map. reflexivity.
  - intros c. unfold py_take, slice_length.
    destruct (Z.leb_spec 0 top);
      rewrite length_firstn, sorted_desc_length; unfold decorate; rewrite length_map.
    + reflexivity.
    + unfold feature in *. transitivity (Z.to_nat (Z.of_nat (length pl) + top)); [apply Nat.min_l|]; lia.
Qed.

Lemma print_rankings_size_witness :
  print_rankings [("A", uniform_feature 1%Q); ("B", uniform_feature 3%Q);
                  ("C", uniform_feature 2%Q)] (-1)%Z
  = (flat_map (section [("A", uniform_feature 1%Q); ("B", uniform_feature 3%Q);
                        ("C", uniform_feature 2%Q)] (-1)%Z) audio_feature_names, None) /\
  (forall c, length (py_take (-1)%Z (sorted_desc (decorate c
       [("A", uniform_feature 1%Q); ("B", uniform_feature 3%Q);
        ("C", uniform_feature 2%Q)])))
     = slice_length (-1)%Z 3) /\
  slice_length (-1)%Z 3 = 2 /\
  section [("A", uniform_feature 1%Q); ("B", uniform_feature 3%Q);
           ("C", uniform_feature 2%Q)] (-1)%Z "tempo"
  = [Header "tempo"; Entry "B" 3%Q; Entry "C" 2%Q; Blank].
Proof.
  split; [|split; [|split]].
  - apply print_rankings_size.
    intros p c Hp Hc. simpl in Hp.
    repeat (destruct Hp as [<-|Hp]; [simpl in Hc;
      repeat (destruct Hc as [<-|Hc]; [discriminate|]); destruct Hc|]).
    destruct Hp.
  - apply print_rankings_size.
    intros p c Hp Hc. simpl in Hp.
    repeat (destruct Hp as [<-|Hp]; [simpl in Hc;
      repeat (destruct Hc as [<-|Hc]; [discriminate|]); destruct Hc|]).
    destruct Hp.
  - reflexivity.
  - reflexivity.
Defined.

(** ** The pipeline when every playlist averages *)

Lemma collect_cons (sp : api) name pid pls acc :
  collect sp ((name, pid) :: pls) acc
  = bind (playlist_average sp pid) (fun avg => collect sp pls (dict_set acc name avg)).
Proof.
  simpl. unfold playlist_average.
  destruct (get_playlist_tracks (track_pages sp) pid); simpl; [|reflexivity].
  destruct (get_audio_features (audio_features_api sp) a) as [[afs tr]|]; simpl; [|reflexivity].
  destruct (average_audio_features afs); reflexivity.
Qed.

Lemma dict_set_absent {V} (d : dict V) k v :
  ~ In k (map fst d) -> dict_set d k v = d ++ [(k, v)].
Proof.
  induction d as [|[k0 v0] d IH]; intros Hk; simpl; [reflexivity|].
  destruct (String.eqb k k0) eqn:E.
  - apply String.eqb_eq in E; subst k0. exfalso. apply Hk. left; reflexivity.
  - rewrite IH; [reflexivity|]. intros H. apply Hk. right; exact H.
Qed.

Lemma dict_get_NoDup {V} (d : dict V) k v :
  NoDup (map fst d) -> In (k, v) d -> dict_get d k = Some v.
Proof.
  induction d as [|[k0 v0] d IH]; intros Hnd Hin; [destruct Hin|].
  simpl in Hnd. apply NoDup_cons_iff in Hnd as [Hk0 Hnd]. simpl.
  destruct Hin as [Heq|Hin].
  - injection Heq as -> ->. rewrite String.eqb_refl. reflexivity.
  - destruct (String.eqb k k0) eqn:E.
    + apply String.eqb_eq in E; subst k0. exfalso. apply Hk0.
      apply (in_map fst) in Hin. exact Hin.
    + apply IH; assumption.
Qed.

Lemma collect_ok (sp : api) :
  forall pls acc,
    NoDup (map fst acc ++ map fst pls) ->
    (forall n pid, In (n, pid) pls -> exists avg, playlist_average sp pid = Ok avg) ->
    exists tail,
      collect sp pls acc = Ok (acc ++ tail) /\
      map fst tail = map fst pls /\
      (forall n pid, In (n, pid) pls ->
         exists avg, In (n, avg) tail /\ playlist_average sp pid = Ok avg).
Proof.
  induction pls as [|[n pid] pls IH]; intros acc Hnd Hok.
  - exists []. rewrite app_nil_r. split; [reflexivity|]. split; [reflexivity|].
    intros n pid [].
  - destruct (Hok n pid (or_introl eq_refl)) as [avg Havg].
    rewrite collect_cons, Havg. cbn [bind].
    simpl in Hnd. apply NoDup_remove in Hnd as [Hnd Hn].
    rewrite dict_set_absent by (intros H; apply Hn, in_or_app; left; exact H).
    destruct (IH (acc ++ [(n, avg)])) as (tail & Hc & Hkeys & Hin).
    + rewrite map_app, <- app_assoc. simpl.
      apply Permutation_NoDup with (n :: map fst acc ++ map fst pls);
        [apply Permutation_middle | constructor; assumption].
    + intros n' pid' H. apply (Hok n' pid'). right; exact H.
    + exists ((n, avg) :: tail). rewrite <- app_assoc in Hc. split; [exact Hc|].
      split; [simpl; rewrite Hkeys; reflexivity|].
      intros n' pid' [Heq|H].
      * injection Heq as <- <-. exists avg. split; [left; reflexivity | exact Havg].
      * destruct (Hin n' pid' H) as (avg' & Hi & Ha). exists avg'.
        split; [right; exact Hi | exact Ha].
Qed.

(** When the averaging of every playlist succeeds, [main] prints the
    ranking of a mapping that has every playlist name of [get_playlists]
    (collaborative or not), in the same order, each bound to the average of
    its own tracks' features. *)
Theorem main_reports_every_playlist :
  forall sp pls,
    get_playlists (playlist_pages sp) false = Ok pls ->
    (forall n pid, In (n, pid) pls -> exists avg, playlist_average sp pid = Ok avg) ->
    exists paf,
      main sp = print_rankings paf 10 /\
      map fst paf = map fst pls /\
      (forall n pid, In (n, pid) pls ->
         exists avg, dict_get paf n = Some avg /\ playlist_average sp pid = Ok avg).
Proof.
  intros sp pls Hpl Hok.
  assert (Hnd : NoDup (map fst pls)).
  { unfold get_playlists in Hpl. rewrite paginate_chain in Hpl.
    injection Hpl as <-. apply select_playlists_keys. }
  destruct (collect_ok sp pls [] Hnd Hok) as (tail & Hc & Hkeys & Hin).
  exists tail. unfold main. rewrite Hpl. cbn [bind]. rewrite Hc. simpl.
  split; [reflexivity|]. split; [exact Hkeys|].
  intros n pid H. destruct (Hin n pid H) as (avg & Hi & Ha).
  exists avg. split; [|exact Ha].
  apply dict_get_NoDup; [rewrite Hkeys; exact Hnd | exact Hi].
Qed.

Lemma main_reports_every_playlist_witness :
  exists paf,
    main (mk_api [[mk_playlist "A" "a" false; mk_playlist "B" "b" true]]
            (fun _ => [[mk_track (Some "t1")]])
            (fun ids => map (fun _ => Some (map (fun n => (n, 1%Q)) audio_feature_names)) ids))
    = print_rankings paf 10 /\
    map fst paf = map fst [("A", "a"); ("B", "b")] /\
    (forall n pid, In (n, pid) [("A", "a"); ("B", "b")] ->
       exists avg, dict_get paf n = Some avg /\
         playlist_average
           (mk_api [[mk_playlist "A" "a" false; mk_playlist "B" "b" true]]
              (fun _ => [[mk_track (Some "t1")]])
              (fun ids => map (fun _ => Some (map (fun n => (n, 1%Q)) audio_feature_names)) ids))
           pid = Ok avg).
Proof.
  apply main_reports_every_playlist.
  - reflexivity.
  - intros n pid [H|[H|[]]]; injection H as <- <-; eexists; reflexivity.
Defined.
